(** * Azure Speech STT provider: a model of
      [custom_components/azurespeech_stt/stt.py]

    The Python module defines one class, [AzureSpeechSTTProvider], a
    speech-to-text provider of Home Assistant.  The development below embeds
    the class shallowly:

    - an instance is its attribute dictionary ([gmap string value]); reading
      an attribute that is in neither the instance nor the class raises
      [AttributeError], as in Python;
    - methods are computations in a small state-and-exception monad over a
      [world] that holds the instance, the iterator state of the chunk
      stream, and the trace of everything the method does to the outside
      (log records, chunks pulled, the WAV buffer written, SDK calls);
    - the [wave] module is modelled at the level of the [Wave_write] object:
      its parameter checks, the fields it packs into the RIFF header and the
      frames it writes.  Byte strings are lists, so their length is not
      bounded (the 32-bit size fields of RIFF are kept as integers);
    - the speech SDK is opaque: the remote service is a function from the
      request to a reply that either resolves, does not resolve before the
      deadline, or fails. *)

From Stdlib Require Import ZArith Lia Strings.Byte Ascii String List.
From stdpp Require Import base gmap strings list.

Import ListNotations.
Local Open Scope string_scope.
Local Open Scope Z_scope.

(** ** Python values and exceptions *)

Abbreviation bytes := (list byte).

(** The values that the adapter stores in, or reads from, attributes. *)
Inductive value : Type :=
  | VNone
  | VStr (s : string)
  | VObj (name : string).

#[global] Instance value_eq_dec : EqDecision value.
Proof. solve_decision. Defined.

Inductive exn : Type :=
  | AttributeError (attr : string)
  | WaveError (msg : string)
  | IndexError (msg : string)
  | KeyError (key : string)
  | TimeoutError
  | SdkError (msg : string).

Inductive outcome (A : Type) : Type :=
  | Return (a : A)
  | Raise (e : exn).
Arguments Return {A} a.
Arguments Raise {A} e.

(** ** [str.split] with a one-character separator *)

Fixpoint str_split (sep : ascii) (s : string) : list string :=
  match s with
  | EmptyString => [EmptyString]
  | String c rest =>
      if Ascii.eqb c sep then EmptyString :: str_split sep rest
      else match str_split sep rest with
           | [] => [String c EmptyString]
           | w :: ws => String c w :: ws
           end
  end.

(** [sep.join(l)], the inverse direction. *)
Fixpoint str_join (sep : ascii) (l : list string) : string :=
  match l with
  | [] => EmptyString
  | [w] => w
  | w :: ws => w ++ String sep (str_join sep ws)
  end.

Fixpoint str_mem (c : ascii) (s : string) : bool :=
  match s with
  | EmptyString => false
  | String d rest => Ascii.eqb d c || str_mem c rest
  end.

Definition comma : ascii := ","%char.

(** ** Home Assistant's STT vocabulary
    ([homeassistant.components.stt]: string and integer enumerations) *)

Module stt.

Inductive AudioFormats := WAV | OGG.
Inductive AudioCodecs := PCM | OPUS.
Inductive AudioBitRates := BITRATE_8 | BITRATE_16 | BITRATE_24 | BITRATE_32.
Inductive AudioSampleRates :=
  | SAMPLERATE_8000 | SAMPLERATE_11000 | SAMPLERATE_16000 | SAMPLERATE_18900
  | SAMPLERATE_22000 | SAMPLERATE_32000 | SAMPLERATE_37800 | SAMPLERATE_44100
  | SAMPLERATE_48000.
Inductive AudioChannels := CHANNEL_MONO | CHANNEL_STEREO.

#[global] Instance AudioFormats_eq_dec : EqDecision AudioFormats.
Proof. solve_decision. Defined.

(** The integer enumerations are [int] subclasses; these are their values. *)
Definition bit_rate_value (b : AudioBitRates) : Z :=
  match b with
  | BITRATE_8 => 8 | BITRATE_16 => 16 | BITRATE_24 => 24 | BITRATE_32 => 32
  end.

Definition sample_rate_value (r : AudioSampleRates) : Z :=
  match r with
  | SAMPLERATE_8000 => 8000 | SAMPLERATE_11000 => 11000
  | SAMPLERATE_16000 => 16000 | SAMPLERATE_18900 => 18900
  | SAMPLERATE_22000 => 22000 | SAMPLERATE_32000 => 32000
  | SAMPLERATE_37800 => 37800 | SAMPLERATE_44100 => 44100
  | SAMPLERATE_48000 => 48000
  end.

Definition channel_value (c : AudioChannels) : Z :=
  match c with CHANNEL_MONO => 1 | CHANNEL_STEREO => 2 end.

Record SpeechMetadata := {
  language : string;
  format : AudioFormats;
  codec : AudioCodecs;
  bit_rate : AudioBitRates;
  sample_rate : AudioSampleRates;
  channel : AudioChannels
}.

Inductive SpeechResultState := SUCCESS | ERROR.

Record SpeechResult := {
  text : string;
  result : SpeechResultState
}.

End stt.
Import stt.

(** ** The [wave] module: writing a PCM file into a [BytesIO] *)

Module wave.

(** The integers that [_write_header] packs, in the order of the RIFF
    header ([<L4s4sLHHLLHH4s] followed by [<L]). *)
Record riff_header := {
  riff_size : Z;
  fmt_tag : Z;
  nchannels : Z;
  framerate : Z;
  byterate : Z;
  blockalign : Z;
  bitspersample : Z;
  data_size : Z
}.

(** Contents of the in-memory file: the header once it is written, then the
    frames. *)
Record BytesIO := {
  header : option riff_header;
  frames : bytes
}.

Definition WAVE_FORMAT_PCM : Z := 1.

Record Wave_write := {
  _file : BytesIO;
  _nchannels : Z;
  _sampwidth : Z;
  _framerate : Z;
  _nframes : Z;
  _nframeswritten : Z;
  _datawritten : Z;
  _datalength : Z;
  _headerwritten : bool
}.

(** [wave.open(io.BytesIO(), 'w')] *)
Definition open : Wave_write :=
  {| _file := {| header := None; frames := [] |};
     _nchannels := 0; _sampwidth := 0; _framerate := 0; _nframes := 0;
     _nframeswritten := 0; _datawritten := 0; _datalength := 0;
     _headerwritten := false |}.

Definition W (A : Type) : Type := Wave_write -> outcome A * Wave_write.

(** One statement after another; an exception ends the sequence. *)
Definition seq (a b : W unit) : W unit := fun f =>
  match a f with
  | (Return _, f') => b f'
  | (Raise e, f') => (Raise e, f')
  end.

Definition setnchannels (n : Z) : W unit := fun f =>
  if negb (_datawritten f =? 0) then
    (Raise (WaveError "cannot change parameters after starting to write"), f)
  else if n <? 1 then (Raise (WaveError "bad # of channels"), f)
  else (Return tt,
        {| _file := _file f; _nchannels := n; _sampwidth := _sampwidth f;
           _framerate := _framerate f; _nframes := _nframes f;
           _nframeswritten := _nframeswritten f;
           _datawritten := _datawritten f; _datalength := _datalength f;
           _headerwritten := _headerwritten f |}).

Definition setsampwidth (n : Z) : W unit := fun f =>
  if negb (_datawritten f =? 0) then
    (Raise (WaveError "cannot change parameters after starting to write"), f)
  else if (n <? 1) || (4 <? n) then (Raise (WaveError "bad sample width"), f)
  else (Return tt,
        {| _file := _file f; _nchannels := _nchannels f; _sampwidth := n;
           _framerate := _framerate f; _nframes := _nframes f;
           _nframeswritten := _nframeswritten f;
           _datawritten := _datawritten f; _datalength := _datalength f;
           _headerwritten := _headerwritten f |}).

Definition setframerate (n : Z) : W unit := fun f =>
  if negb (_datawritten f =? 0) then
    (Raise (WaveError "cannot change parameters after starting to write"), f)
  else if n <=? 0 then (Raise (WaveError "bad frame rate"), f)
  else (Return tt,
        {| _file := _file f; _nchannels := _nchannels f;
           _sampwidth := _sampwidth f; _framerate := n;
           _nframes := _nframes f; _nframeswritten := _nframeswritten f;
           _datawritten := _datawritten f; _datalength := _datalength f;
           _headerwritten := _headerwritten f |}).

(** [_write_header(initlength)]: the frame count defaults to what
    [initlength] bytes hold, and the header is written for that count. *)
Definition _write_header (initlength : Z) (f : Wave_write) : Wave_write :=
  let nframes :=
    if _nframes f =? 0 then initlength / (_nchannels f * _sampwidth f)
    else _nframes f in
  let datalength := nframes * _nchannels f * _sampwidth f in
  {| _file :=
       {| header := Some
            {| riff_size := 36 + datalength;
               fmt_tag := WAVE_FORMAT_PCM;
               nchannels := _nchannels f;
               framerate := _framerate f;
               byterate := _nchannels f * _framerate f * _sampwidth f;
               blockalign := _nchannels f * _sampwidth f;
               bitspersample := _sampwidth f * 8;
               data_size := datalength |};
          frames := frames (_file f) |};
     _nchannels := _nchannels f; _sampwidth := _sampwidth f;
     _framerate := _framerate f; _nframes := nframes;
     _nframeswritten := _nframeswritten f;
     _datawritten := _datawritten f; _datalength := datalength;
     _headerwritten := true |}.

Definition _ensure_header_written (datasize : Z) : W unit := fun f =>
  if _headerwritten f then (Return tt, f)
  else if _nchannels f =? 0 then
    (Raise (WaveError "# channels not specified"), f)
  else if _sampwidth f =? 0 then
    (Raise (WaveError "sample width not specified"), f)
  else if _framerate f =? 0 then
    (Raise (WaveError "sampling rate not specified"), f)
  else (Return tt, _write_header datasize f).

(** [_patchheader()]: both size fields are rewritten with the number of
    bytes really written. *)
Definition _patchheader (f : Wave_write) : Wave_write :=
  if _datawritten f =? _datalength f then f
  else
    {| _file :=
         {| header :=
              match header (_file f) with
              | Some h => Some
                  {| riff_size := 36 + _datawritten f;
                     fmt_tag := fmt_tag h; nchannels := nchannels h;
                     framerate := framerate h; byterate := byterate h;
                     blockalign := blockalign h;
                     bitspersample := bitspersample h;
                     data_size := _datawritten f |}
              | None => None
              end;
            frames := frames (_file f) |};
       _nchannels := _nchannels f; _sampwidth := _sampwidth f;
       _framerate := _framerate f; _nframes := _nframes f;
       _nframeswritten := _nframeswritten f;
       _datawritten := _datawritten f; _datalength := _datawritten f;
       _headerwritten := _headerwritten f |}.

Definition writeframesraw (data : bytes) : W unit :=
  seq (_ensure_header_written (Z.of_nat (length data))) (fun f =>
    let nframes := Z.of_nat (length data) / (_sampwidth f * _nchannels f) in
    (Return tt,
     {| _file := {| header := header (_file f);
                    frames := frames (_file f) ++ data |};
        _nchannels := _nchannels f; _sampwidth := _sampwidth f;
        _framerate := _framerate f; _nframes := _nframes f;
        _nframeswritten := _nframeswritten f + nframes;
        _datawritten := _datawritten f + Z.of_nat (length data);
        _datalength := _datalength f;
        _headerwritten := _headerwritten f |})).

(** [if self._datalength != self._datawritten: self._patchheader()] *)
Definition _patch_if_needed : W unit := fun f =>
  (Return tt, if _datalength f =? _datawritten f then f else _patchheader f).

Definition writeframes (data : bytes) : W unit :=
  seq (writeframesraw data) _patch_if_needed.

Definition close : W unit :=
  seq (_ensure_header_written 0) _patch_if_needed.

(** [with wave.open(io.BytesIO(), 'w') as wav_file: body]: the file is
    closed when the block is left, also by an exception; an exception of
    [close] replaces the one of the block.  The value is the buffer. *)
Definition with_open (body : W unit) : outcome BytesIO :=
  match body open with
  | (Return _, f) =>
      match close f with
      | (Return _, f') => Return (_file f')
      | (Raise e, _) => Raise e
      end
  | (Raise e, f) =>
      match close f with
      | (Return _, _) => Raise e
      | (Raise e', _) => Raise e'
      end
  end.

(** What [Wave_read] reports for a buffer ([_read_fmt_chunk]). *)
Definition getnchannels (h : riff_header) : Z := nchannels h.
Definition getsampwidth (h : riff_header) : Z := (bitspersample h + 7) / 8.
Definition getframerate (h : riff_header) : Z := framerate h.

End wave.

(** ** The speech SDK ([azure.cognitiveservices.speech])

    The SDK is not part of the component.  What the component relies on is
    an enumeration of result reasons with a member [RecognizedSpeech], the
    [==] and [str] of its members, and recognition results with a [reason]
    and a [text]. *)

Class SpeechSdk := {
  ResultReason : Type;
  ResultReason_eq_dec :: EqDecision ResultReason;
  RecognizedSpeech : ResultReason;
  reason_str : ResultReason -> string
}.

Module speechsdk.
Section sdk.
Context `{SpeechSdk}.

Record SpeechConfig := { subscription : value; region : value }.
Record AudioConfig := { stream : wave.BytesIO }.
Record AutoDetectSourceLanguageConfig := { languages : list string }.

Record SpeechRecognizer := {
  speech_config : SpeechConfig;
  audio_config : AudioConfig;
  auto_detect_source_language_config : AutoDetectSourceLanguageConfig
}.

Record SpeechRecognitionResult := { reason : ResultReason; text : string }.

(** How the service answers one [recognize_once_async] that is awaited
    under a deadline. *)
Inductive reply :=
  | Resolved (r : SpeechRecognitionResult)
  | Unresolved
  | Failed (e : exn).

Inductive call :=
  | NewSpeechConfig (c : SpeechConfig)
  | NewAudioConfig (c : AudioConfig)
  | NewAutoDetectSourceLanguageConfig (c : AutoDetectSourceLanguageConfig)
  | NewSpeechRecognizer (r : SpeechRecognizer)
  | RecognizeOnce (r : SpeechRecognizer) (deadline : Z).
End sdk.
End speechsdk.

(** ** The world a method runs in *)

Section Provider.
Context `{SpeechSdk}.

Inductive event :=
  | LogError (msg : string) (arg : AudioFormats)
  | StreamNext (chunk : bytes)
  | WaveWritten (buf : wave.BytesIO)
  | Sdk (c : speechsdk.call).

(** A remote service: the answer to a recognizer awaited for at most
    [deadline] seconds. *)
Definition service : Type :=
  speechsdk.SpeechRecognizer -> Z -> speechsdk.reply.

Record world := {
  w_self : gmap string value;
  w_stream : list bytes;
  w_service : service;
  w_trace : list event
}.

Definition M (A : Type) : Type := world -> outcome A * world.

Definition ret {A} (a : A) : M A := fun w => (Return a, w).

Definition raise {A} (e : exn) : M A := fun w => (Raise e, w).

Definition bind {A B} (m : M A) (k : A -> M B) : M B := fun w =>
  match m w with
  | (Return a, w') => k a w'
  | (Raise e, w') => (Raise e, w')
  end.

Definition lift {A} (o : outcome A) : M A := fun w => (o, w).

Definition emit (e : event) : M unit := fun w =>
  (Return tt,
   {| w_self := w_self w; w_stream := w_stream w;
      w_service := w_service w; w_trace := w_trace w ++ [e] |}).

(** [self.<name> = v] *)
Definition setattr (name : string) (v : value) : M unit := fun w =>
  (Return tt,
   {| w_self := <[name := v]> (w_self w); w_stream := w_stream w;
      w_service := w_service w; w_trace := w_trace w |}).

(** Data attributes of the base class [stt.Provider]; its properties and
    methods are the functions below, not entries of a dictionary. *)
Definition Provider_attrs : gmap string value :=
  {[ "hass" := VNone; "name" := VNone ]}.

(** [self.<name>]: the instance dictionary, then the class. *)
Definition getattr (name : string) : M value := fun w =>
  match w_self w !! name with
  | Some v => (Return v, w)
  | None =>
      match Provider_attrs !! name with
      | Some v => (Return v, w)
      | None => (Raise (AttributeError name), w)
      end
  end.

(** [_LOGGER.error(msg, arg)] *)
Definition _LOGGER_error (msg : string) (arg : AudioFormats) : M unit :=
  emit (LogError msg arg).

End Provider.

Notation "'let*' x ':=' m 'in' k" := (bind m (fun x => k))
  (at level 10, x name, m at level 100, k at level 200).
Notation "'run*' m 'in' k" := (bind m (fun _ => k))
  (at level 10, m at level 100, k at level 200).

(** ** The provider class *)

Section AzureSpeechSTTProvider.
Context `{SpeechSdk}.

(** [__init__(self, hass, api_key, lang, region)]: the assignments of the
    constructor, in order, on an empty instance dictionary. *)
Definition __init__ (hass api_key lang region : value) : M unit :=
  run* setattr "hass" hass in
  run* setattr "_api_key" api_key in
  setattr "_language" lang.

Definition no_service : service := fun _ _ => speechsdk.Unresolved.

(** [AzureSpeechSTTProvider(hass, api_key, lang, region)]: the instance
    dictionary that the constructor leaves. *)
Definition AzureSpeechSTTProvider (hass api_key lang region : value)
  : gmap string value :=
  w_self (snd (__init__ hass api_key lang region
                 {| w_self := ∅; w_stream := []; w_service := no_service;
                    w_trace := [] |})).

Definition CONF_API_KEY : string := "api_key".
Definition CONF_LANG : string := "language".
Definition DEFAULT_LANG : string := "en-US".

(** [async_get_engine(hass, config)]: [config[k]] raises on a missing key,
    [config.get(k, d)] does not. *)
Definition async_get_engine (hass : value) (config : gmap string value)
  : outcome (gmap string value) :=
  match config !! CONF_API_KEY with
  | None => Raise (KeyError CONF_API_KEY)
  | Some api_key =>
      let languages := default (VStr DEFAULT_LANG) (config !! CONF_LANG) in
      let region := default VNone (config !! "region") in
      Return (AzureSpeechSTTProvider hass api_key languages region)
  end.

(** A method call [self.m(metadata, stream)] against a service. *)
Definition call {A} (m : M A) (self : gmap string value)
    (stream : list bytes) (svc : service) : outcome A * world :=
  m {| w_self := self; w_stream := stream; w_service := svc;
       w_trace := [] |}.

(** [s.split(',')] on a value: only strings have the method. *)
Definition split (v : value) (sep : ascii) : M (list string) :=
  match v with
  | VStr s => ret (str_split sep s)
  | _ => raise (AttributeError "split")
  end.

(** [l[0]] *)
Definition first (l : list string) : M string :=
  match l with
  | x :: _ => ret x
  | [] => raise (IndexError "list index out of range")
  end.

Definition default_language : M string :=
  let* lang := getattr "_language" in
  let* parts := split lang comma in
  first parts.

Definition supported_languages : M (list string) :=
  let* lang := getattr "_language" in
  split lang comma.

Definition supported_formats : M (list AudioFormats) := ret [WAV].
Definition supported_codecs : M (list AudioCodecs) := ret [PCM].
Definition supported_bit_rates : M (list AudioBitRates) := ret [BITRATE_16].
Definition supported_sample_rates : M (list AudioSampleRates) :=
  ret [SAMPLERATE_16000].
Definition supported_channels : M (list AudioChannels) := ret [CHANNEL_MONO].

(** [data = b''; async for chunk in stream: data += chunk], on the chunks
    the stream still holds. *)
Fixpoint accumulate (data : bytes) (stream : list bytes) : bytes :=
  match stream with
  | [] => data
  | chunk :: rest => accumulate (data ++ chunk) rest
  end.

(** The loop as an effect: every chunk is pulled, in order, and the stream
    is left exhausted. *)
Definition async_for_chunk_in_stream : M bytes := fun w =>
  (Return (accumulate [] (w_stream w)),
   {| w_self := w_self w; w_stream := [];
      w_service := w_service w;
      w_trace := w_trace w ++ map StreamNext (w_stream w) |}).

(** Lines 101 to 110: the WAV buffer for [data]. *)
Definition wav_of (metadata : SpeechMetadata) (data : bytes)
  : outcome wave.BytesIO :=
  wave.with_open
    (wave.seq (wave.setnchannels (channel_value (channel metadata)))
    (wave.seq (wave.setsampwidth (bit_rate_value (bit_rate metadata) / 8))
    (wave.seq (wave.setframerate (sample_rate_value (sample_rate metadata)))
              (wave.writeframes data)))).

(** [await reg.recognize_once_async()] inside
    [async with async_timeout.timeout(deadline)]. *)
Definition recognize_once_within (deadline : Z)
    (reg : speechsdk.SpeechRecognizer) : M speechsdk.SpeechRecognitionResult :=
  run* emit (Sdk (speechsdk.RecognizeOnce reg deadline)) in
  fun w =>
    match w_service w reg deadline with
    | speechsdk.Resolved r => (Return r, w)
    | speechsdk.Unresolved => (Raise TimeoutError, w)
    | speechsdk.Failed e => (Raise e, w)
    end.

Definition async_process_audio_stream (metadata : SpeechMetadata)
  : M SpeechResult :=
  if decide (format metadata <> WAV) then
    run* _LOGGER_error "Unsupported audio format: %s" (format metadata) in
    ret {| text := ""; result := ERROR |}
  else
    let* data := async_for_chunk_in_stream in
    let* wav_stream := lift (wav_of metadata data) in
    run* emit (WaveWritten wav_stream) in
    let* api_key := getattr "_api_key" in
    let* region := getattr "_region" in
    let config :=
      {| speechsdk.subscription := api_key; speechsdk.region := region |} in
    run* emit (Sdk (speechsdk.NewSpeechConfig config)) in
    let audio := {| speechsdk.stream := wav_stream |} in
    run* emit (Sdk (speechsdk.NewAudioConfig audio)) in
    let* langs := supported_languages in
    let auto := {| speechsdk.languages := langs |} in
    run* emit (Sdk (speechsdk.NewAutoDetectSourceLanguageConfig auto)) in
    let reg :=
      {| speechsdk.speech_config := config;
         speechsdk.audio_config := audio;
         speechsdk.auto_detect_source_language_config := auto |} in
    run* emit (Sdk (speechsdk.NewSpeechRecognizer reg)) in
    let* result := recognize_once_within 20 reg in
    if decide (speechsdk.reason result = RecognizedSpeech) then
      ret {| text := speechsdk.text result; result := SUCCESS |}
    else
      ret {| text := reason_str (speechsdk.reason result); result := ERROR |}.

End AzureSpeechSTTProvider.

(** ** A concrete SDK for closed examples

    Members of [speechsdk.ResultReason] that a recognizer reports; [str] of
    an enumeration member is the class name, a dot and the member name. *)

Module azure.
Inductive ResultReason :=
  | NoMatch | Canceled | RecognizingSpeech | RecognizedSpeech.

#[global] Instance ResultReason_eq_dec : EqDecision ResultReason.
Proof. solve_decision. Defined.

Definition str (r : ResultReason) : string :=
  match r with
  | NoMatch => "ResultReason.NoMatch"
  | Canceled => "ResultReason.Canceled"
  | RecognizingSpeech => "ResultReason.RecognizingSpeech"
  | RecognizedSpeech => "ResultReason.RecognizedSpeech"
  end.

#[global] Instance sdk : SpeechSdk :=
  Build_SpeechSdk ResultReason ResultReason_eq_dec RecognizedSpeech str.

(** A service that resolves every call with the given result. *)
Definition resolves (reason : ResultReason) (text : string) : @service sdk :=
  fun _ _ =>
    speechsdk.Resolved {| speechsdk.reason := reason; speechsdk.text := text |}.

Definition never_resolves : @service sdk := fun _ _ => speechsdk.Unresolved.
End azure.

Definition mono16k (lang : string) (codec : AudioCodecs) : SpeechMetadata :=
  {| language := lang; format := WAV; codec := codec; bit_rate := BITRATE_16;
     sample_rate := SAMPLERATE_16000; channel := CHANNEL_MONO |}.

Definition sample_provider : gmap string value :=
  @AzureSpeechSTTProvider azure.sdk
    (VObj "hass") (VStr "key") (VStr "en-US,fr-FR") (VStr "westeurope").

Definition sample_stream : list bytes := [[x00; x01]; [x02; x03]].

(** The instance with a [_region] attribute put in by hand. *)
Definition with_region (self : gmap string value) : gmap string value :=
  <["_region" := VStr "westeurope"]> self.

(** ** Notions used in the statements *)

(** A piece without the separator. *)
Definition sep_free (sep : ascii) (w : string) : Prop := str_mem sep w = false.

(** The header of a PCM file of [len] bytes with the given parameters. *)
Definition pcm_header (n sw r len : Z) : wave.riff_header :=
  {| wave.riff_size := 36 + len; wave.fmt_tag := wave.WAVE_FORMAT_PCM;
     wave.nchannels := n; wave.framerate := r; wave.byterate := n * r * sw;
     wave.blockalign := n * sw; wave.bitspersample := sw * 8;
     wave.data_size := len |}.

(** The header for [len] bytes recorded with [metadata]. *)
Definition wav_header (metadata : SpeechMetadata) (len : Z) : wave.riff_header :=
  pcm_header (channel_value (channel metadata))
             (bit_rate_value (bit_rate metadata) / 8)
             (sample_rate_value (sample_rate metadata)) len.

(** The buffer that holds [data] recorded with [metadata]. *)
Definition wav_buffer (metadata : SpeechMetadata) (data : bytes) : wave.BytesIO :=
  {| wave.header := Some (wav_header metadata (Z.of_nat (length data)));
     wave.frames := data |}.

Definition is_sdk_call `{SpeechSdk} (e : event) : bool :=
  match e with Sdk _ => true | _ => false end.

Definition is_recognize_once `{SpeechSdk} (e : event) : bool :=
  match e with Sdk (speechsdk.RecognizeOnce _ _) => true | _ => false end.

Section notions.
Context `{SpeechSdk}.

(** The computation leaves the instance dictionary as it found it. *)
Definition keeps_self {A} (m : M A) : Prop :=
  forall w, w_self (snd (m w)) = w_self w.

(** The computation leaves the stream alone and only adds to the trace. *)
Definition appends_only {A} (m : M A) : Prop :=
  forall w, w_stream (snd (m w)) = w_stream w
            /\ exists t, w_trace (snd (m w)) = (w_trace w ++ t)%list.

(** Lines 112 to 121 on their own: what the method does once the buffer
    [wav_stream] is built. *)
Definition submit (wav_stream : wave.BytesIO) : M SpeechResult :=
  let* api_key := getattr "_api_key" in
  let* region := getattr "_region" in
  let config :=
    {| speechsdk.subscription := api_key; speechsdk.region := region |} in
  run* emit (Sdk (speechsdk.NewSpeechConfig config)) in
  let audio := {| speechsdk.stream := wav_stream |} in
  run* emit (Sdk (speechsdk.NewAudioConfig audio)) in
  let* langs := supported_languages in
  let auto := {| speechsdk.languages := langs |} in
  run* emit (Sdk (speechsdk.NewAutoDetectSourceLanguageConfig auto)) in
  let reg :=
    {| speechsdk.speech_config := config;
       speechsdk.audio_config := audio;
       speechsdk.auto_detect_source_language_config := auto |} in
  run* emit (Sdk (speechsdk.NewSpeechRecognizer reg)) in
  let* result := recognize_once_within 20 reg in
  if decide (speechsdk.reason result = RecognizedSpeech) then
    ret {| text := speechsdk.text result; result := SUCCESS |}
  else
    ret {| text := reason_str (speechsdk.reason result); result := ERROR |}.

(** The recognizer that [submit] builds. *)
Definition recognizer_for (api_key region : value) (wav_stream : wave.BytesIO)
    (langs : list string) : speechsdk.SpeechRecognizer :=
  {| speechsdk.speech_config :=
       {| speechsdk.subscription := api_key; speechsdk.region := region |};
     speechsdk.audio_config := {| speechsdk.stream := wav_stream |};
     speechsdk.auto_detect_source_language_config :=
       {| speechsdk.languages := langs |} |}.

(** The SDK calls of a complete [submit], in order. *)
Definition sdk_calls (reg : speechsdk.SpeechRecognizer) : list event :=
  [ Sdk (speechsdk.NewSpeechConfig (speechsdk.speech_config reg));
    Sdk (speechsdk.NewAudioConfig (speechsdk.audio_config reg));
    Sdk (speechsdk.NewAutoDetectSourceLanguageConfig
           (speechsdk.auto_detect_source_language_config reg));
    Sdk (speechsdk.NewSpeechRecognizer reg);
    Sdk (speechsdk.RecognizeOnce reg 20) ].

(** The world in which [submit] starts when the method is entered in [w]
    with WAV metadata. *)
Definition after_wav (metadata : SpeechMetadata) (w : world) : world :=
  {| w_self := w_self w; w_stream := []; w_service := w_service w;
     w_trace :=
       (w_trace w ++ map StreamNext (w_stream w)
        ++ [WaveWritten (wav_buffer metadata (concat (w_stream w)))])%list |}.
End notions.

(** ** Notions used in the further properties *)

(** How often the character [c] occurs in [s]. *)
Fixpoint str_count (c : ascii) (s : string) : nat :=
  match s with
  | EmptyString => 0%nat
  | String d rest =>
      ((if Ascii.eqb d c then 1 else 0) + str_count c rest)%nat
  end.

(** How many recognitions a trace holds. *)
Definition count_recognize_once `{SpeechSdk} (t : list event) : nat :=
  length (List.filter is_recognize_once t).

(** What lines 118 to 121 make of a reply of the service; a reply that does
    not resolve in time, or a failure of the SDK, is raised. *)
Definition result_of_reply `{SpeechSdk} (r : speechsdk.reply)
  : outcome SpeechResult :=
  match r with
  | speechsdk.Resolved res =>
      if decide (speechsdk.reason res = RecognizedSpeech)
      then Return {| text := speechsdk.text res; result := SUCCESS |}
      else Return {| text := reason_str (speechsdk.reason res);
                     result := ERROR |}
  | speechsdk.Unresolved => Raise TimeoutError
  | speechsdk.Failed e => Raise e
  end.

(** A world around an instance. *)
Definition world_of `{SpeechSdk} (self : gmap string value)
    (stream : list bytes) (svc : service) (trace : list event) : world :=
  {| w_self := self; w_stream := stream; w_service := svc; w_trace := trace |}.

(** The outcome of the computation is decided by the instance and the
    service alone, and so are the instance and the service it leaves. *)
Definition local `{SpeechSdk} {A} (m : M A) : Prop :=
  forall w1 w2,
    w_self w1 = w_self w2 -> w_service w1 = w_service w2 ->
    fst (m w1) = fst (m w2)
    /\ w_self (snd (m w1)) = w_self (snd (m w2))
    /\ w_service (snd (m w1)) = w_service (snd (m w2)).

(** Sample configurations of the platform. *)
Definition sample_config : gmap string value :=
  <["region" := VStr "westeurope"]>
    (<["language" := VStr "en-US,fr-FR"]> {[ "api_key" := VStr "key" ]}).

Definition minimal_config : gmap string value := {[ "api_key" := VStr "key" ]}.

(** * Properties *)

Local Open Scope list_scope.

(** ** [str.split] *)

Section split_facts.
Variable sep : ascii.

Lemma str_split_nonempty (s : string) : str_split sep s <> [].
Proof.
  destruct s as [|c rest]; simpl; [discriminate|].
  destruct (Ascii.eqb c sep); [discriminate|].
  destruct (str_split sep rest); discriminate.
Qed.

Lemma str_join_cons (w : string) (ws : list string) :
  ws <> [] -> str_join sep (w :: ws) = (w ++ String sep (str_join sep ws))%string.
Proof. destruct ws; [congruence | reflexivity]. Qed.

(** Joining the pieces with the separator gives the string back. *)
Lemma str_join_split (s : string) : str_join sep (str_split sep s) = s.
Proof.
  induction s as [|c rest IH]; [reflexivity|].
  simpl str_split. pose proof (str_split_nonempty rest) as Hne.
  destruct (Ascii.eqb_spec c sep) as [->|Hc].
  - rewrite str_join_cons by assumption. simpl. now rewrite IH.
  - destruct (str_split sep rest) as [|w ws]; [congruence|].
    destruct ws as [|w' ws].
    + simpl in *. now rewrite IH.
    + rewrite str_join_cons by discriminate.
      rewrite str_join_cons in IH by discriminate.
      now rewrite <- IH.
Qed.

(** No piece contains the separator. *)
Lemma str_split_sep_free (s : string) : Forall (sep_free sep) (str_split sep s).
Proof.
  induction s as [|c rest IH]; simpl.
  - repeat constructor.
  - destruct (Ascii.eqb c sep) eqn:Hc.
    + constructor; [reflexivity | assumption].
    + destruct (str_split sep rest) as [|w ws]; [repeat constructor|].
      * unfold sep_free. simpl. now rewrite Hc.
      * inversion IH; subst. constructor; [|assumption].
        unfold sep_free in *. simpl. now rewrite Hc.
Qed.

Lemma str_split_free (w : string) : sep_free sep w -> str_split sep w = [w].
Proof.
  unfold sep_free. induction w as [|c rest IH]; simpl; [reflexivity|].
  destruct (Ascii.eqb c sep); simpl; [discriminate|].
  intros Hr. now rewrite (IH Hr).
Qed.

Lemma str_split_app (w s : string) :
  sep_free sep w ->
  str_split sep (w ++ String sep s)%string = w :: str_split sep s.
Proof.
  unfold sep_free. induction w as [|c rest IH]; simpl.
  - now rewrite Ascii.eqb_refl.
  - destruct (Ascii.eqb c sep); simpl; [discriminate|].
    intros Hr. now rewrite (IH Hr).
Qed.

(** Conversely, a non-empty list of separator-free pieces is the split of
    its join: the split is determined by the two facts above. *)
Lemma str_split_join (l : list string) :
  l <> [] -> Forall (sep_free sep) l -> str_split sep (str_join sep l) = l.
Proof.
  induction l as [|w ws IH]; [congruence|].
  intros _ Hall. inversion Hall as [|? ? Hw Hws]; subst.
  destruct ws as [|w' ws].
  - simpl. now apply str_split_free.
  - rewrite str_join_cons by discriminate.
    rewrite str_split_app by assumption.
    now rewrite IH.
Qed.
End split_facts.

(** ** Draining the stream *)

Lemma accumulate_app (stream : list bytes) (data : bytes) :
  accumulate data stream = (data ++ concat stream)%list.
Proof.
  revert data. induction stream as [|chunk rest IH]; intros data; simpl.
  - now rewrite app_nil_r.
  - now rewrite IH, app_assoc.
Qed.

Lemma accumulate_concat (stream : list bytes) :
  accumulate [] stream = concat stream.
Proof. apply accumulate_app. Qed.

(** ** The WAV buffer *)

Section wave_facts.
Import wave.

(** With parameters that pass the checks, the block of lines 103 to 108
    leaves a header for exactly the bytes written, followed by them. *)
Lemma with_open_valid (n sw r : Z) (data : bytes) :
  1 <= n -> 1 <= sw <= 4 -> 0 < r ->
  with_open
    (seq (setnchannels n)
    (seq (setsampwidth sw)
    (seq (setframerate r) (writeframes data))))
  = Return {| header := Some (pcm_header n sw r (Z.of_nat (length data)));
              frames := data |}.
Proof.
  intros Hn Hsw Hr.
  assert (En : (n <? 1) = false) by lia.
  assert (Esw : ((sw <? 1) || (4 <? sw))%bool = false) by lia.
  assert (Er : (r <=? 0) = false) by lia.
  assert (En0 : (n =? 0) = false) by lia.
  assert (Esw0 : (sw =? 0) = false) by lia.
  assert (Er0 : (r =? 0) = false) by lia.
  unfold with_open, setnchannels, setsampwidth, setframerate,
    writeframes, writeframesraw, close, _ensure_header_written,
    _patch_if_needed, _patchheader, _write_header, pcm_header, open, seq.
  repeat (progress (rewrite ?Z.eqb_refl, ?En, ?Esw, ?Er, ?En0, ?Esw0, ?Er0;
                    cbn -[Z.mul Z.add Z.div Z.eqb Z.ltb Z.leb Z.of_nat])).
  set (len := Z.of_nat (length data)).
  rewrite (Z.mul_comm sw n).
  set (dl := len / (n * sw) * n * sw).
  rewrite (Z.eqb_sym (0 + len) dl).
  destruct (Z.eqb_spec dl (0 + len)) as [E|E];
    repeat (progress (rewrite ?Z.eqb_refl;
                    cbn -[Z.mul Z.add Z.div Z.eqb Z.ltb Z.leb Z.of_nat])).
  - rewrite E, Z.eqb_refl. cbn -[Z.mul Z.add Z.div Z.of_nat].
    now rewrite Z.add_0_l.
  - now rewrite Z.add_0_l.
Qed.
End wave_facts.

(** Every metadata passes the checks of [wave]: the enumerations hold only
    values that the module accepts. *)
Lemma wav_of_ok (metadata : SpeechMetadata) (data : bytes) :
  wav_of metadata data
  = Return (wav_buffer metadata data).
Proof.
  unfold wav_of, wav_buffer, wav_header. apply with_open_valid.
  - destruct (channel metadata); simpl; lia.
  - destruct (bit_rate metadata); vm_compute; intuition discriminate.
  - destruct (sample_rate metadata); simpl; lia.
Qed.

(** What a reader of the buffer reports is what the metadata said. *)
Lemma wav_header_fields (metadata : SpeechMetadata) (len : Z) :
  wave.getnchannels (wav_header metadata len) = channel_value (channel metadata)
  /\ wave.getsampwidth (wav_header metadata len)
     = bit_rate_value (bit_rate metadata) / 8
  /\ wave.getframerate (wav_header metadata len)
     = sample_rate_value (sample_rate metadata)
  /\ wave.data_size (wav_header metadata len) = len.
Proof.
  repeat split. unfold wave.getsampwidth, wav_header, pcm_header; simpl.
  destruct (bit_rate metadata); reflexivity.
Qed.

(** ** What a computation may touch *)

Section frames.
Context `{SpeechSdk}.

Lemma keeps_self_ret {A} (a : A) : keeps_self (ret a).
Proof. now intros w. Qed.

Lemma keeps_self_raise {A} (e : exn) : keeps_self (@raise _ A e).
Proof. now intros w. Qed.

Lemma keeps_self_lift {A} (o : outcome A) : keeps_self (lift o).
Proof. now intros w. Qed.

Lemma keeps_self_emit (e : event) : keeps_self (emit e).
Proof. now intros w. Qed.

Lemma keeps_self_getattr (name : string) : keeps_self (getattr name).
Proof.
  intros w. unfold getattr.
  destruct (w_self w !! name); [reflexivity|].
  destruct (Provider_attrs !! name); reflexivity.
Qed.

Lemma keeps_self_bind {A B} (m : M A) (k : A -> M B) :
  keeps_self m -> (forall a, keeps_self (k a)) -> keeps_self (bind m k).
Proof.
  intros Hm Hk w. unfold bind. specialize (Hm w).
  destruct (m w) as [[a|e] w']; simpl in *; [|assumption].
  now rewrite Hk.
Qed.

Lemma keeps_self_async_for : keeps_self async_for_chunk_in_stream.
Proof. now intros w. Qed.

Lemma keeps_self_split (v : value) (sep : ascii) : keeps_self (split v sep).
Proof. destruct v; now intros w. Qed.

Lemma keeps_self_first (l : list string) : keeps_self (first l).
Proof. destruct l; now intros w. Qed.

Lemma keeps_self_await (d : Z) (reg : speechsdk.SpeechRecognizer) :
  keeps_self (recognize_once_within d reg).
Proof.
  apply keeps_self_bind; [apply keeps_self_emit|].
  intros _ w. destruct (w_service w reg d); reflexivity.
Qed.

Lemma appends_only_ret {A} (a : A) : appends_only (ret a).
Proof. intros w; split; [reflexivity|]. exists []. now rewrite app_nil_r. Qed.

Lemma appends_only_raise {A} (e : exn) : appends_only (@raise _ A e).
Proof. intros w; split; [reflexivity|]. exists []. now rewrite app_nil_r. Qed.

Lemma appends_only_emit (e : event) : appends_only (emit e).
Proof. intros w; split; [reflexivity|]. now exists [e]. Qed.

Lemma appends_only_getattr (name : string) : appends_only (getattr name).
Proof.
  intros w. unfold getattr.
  destruct (w_self w !! name);
    [|destruct (Provider_attrs !! name)];
    (split; [reflexivity|]; exists []; now rewrite app_nil_r).
Qed.

Lemma appends_only_bind {A B} (m : M A) (k : A -> M B) :
  appends_only m -> (forall a, appends_only (k a)) -> appends_only (bind m k).
Proof.
  intros Hm Hk w. unfold bind. destruct (Hm w) as [Hs [t Ht]].
  destruct (m w) as [[a|e] w']; simpl in *; [|eauto].
  destruct (Hk a w') as [Hs' [t' Ht']]. split; [congruence|].
  exists (t ++ t'). now rewrite Ht', Ht, app_assoc.
Qed.

Lemma appends_only_split (v : value) (sep : ascii) :
  appends_only (split v sep).
Proof.
  destruct v; simpl; auto using appends_only_ret, appends_only_raise.
Qed.

Lemma appends_only_await (d : Z) (reg : speechsdk.SpeechRecognizer) :
  appends_only (recognize_once_within d reg).
Proof.
  apply appends_only_bind; [apply appends_only_emit|].
  intros _ w. destruct (w_service w reg d);
    (split; [reflexivity|]; exists []; now rewrite app_nil_r).
Qed.
End frames.

Create HintDb frame.
#[global] Hint Resolve keeps_self_ret keeps_self_raise keeps_self_lift
  keeps_self_emit keeps_self_getattr keeps_self_async_for keeps_self_split
  keeps_self_first keeps_self_await appends_only_ret appends_only_raise
  appends_only_emit appends_only_getattr appends_only_split
  appends_only_await : frame.

(** Walks down a chain of binds, closing each step from the hint base. *)
Ltac frame_steps :=
  repeat first
    [ solve [auto with frame]
    | apply keeps_self_bind; [|intros ?]
    | apply appends_only_bind; [|intros ?]
    | case_decide ].

(** ** The constructor *)

Section method_facts.
Context `{SpeechSdk}.

Lemma provider_dict (hass api_key lang region : value) :
  AzureSpeechSTTProvider hass api_key lang region
  = <["_language" := lang]> (<["_api_key" := api_key]> (<["hass" := hass]> ∅)).
Proof. reflexivity. Qed.

Lemma provider_api_key (hass api_key lang region : value) :
  AzureSpeechSTTProvider hass api_key lang region !! "_api_key" = Some api_key.
Proof. rewrite provider_dict. now simplify_map_eq. Qed.

Lemma provider_language (hass api_key lang region : value) :
  AzureSpeechSTTProvider hass api_key lang region !! "_language" = Some lang.
Proof. rewrite provider_dict. now simplify_map_eq. Qed.

(** The constructor stores three attributes; [region] is not among them. *)
Lemma provider_region (hass api_key lang region : value) :
  AzureSpeechSTTProvider hass api_key lang region !! "_region" = None.
Proof. rewrite provider_dict. now simplify_map_eq. Qed.

Lemma provider_dom (hass api_key lang region : value) :
  dom (AzureSpeechSTTProvider hass api_key lang region)
  = ({[ "hass"; "_api_key"; "_language" ]} : gset string).
Proof. rewrite provider_dict, !dom_insert_L. set_solver. Qed.

(** ** Running a bind *)

Lemma bind_Return {A B} (m : M A) (k : A -> M B) (w w' : world) (a : A) :
  m w = (Return a, w') -> bind m k w = k a w'.
Proof. intros E. unfold bind. now rewrite E. Qed.

Lemma bind_Raise {A B} (m : M A) (k : A -> M B) (w w' : world) (e : exn) :
  m w = (Raise e, w') -> bind m k w = (Raise e, w').
Proof. intros E. unfold bind. now rewrite E. Qed.

Lemma getattr_instance (name : string) (v : value) (w : world) :
  w_self w !! name = Some v -> getattr name w = (Return v, w).
Proof. intros E. unfold getattr. now rewrite E. Qed.

Lemma getattr_missing (name : string) (w : world) :
  w_self w !! name = None -> Provider_attrs !! name = None ->
  getattr name w = (Raise (AttributeError name), w).
Proof. intros E1 E2. unfold getattr. now rewrite E1, E2. Qed.

(** ** The method up to the buffer *)

(** With WAV metadata the method drains the stream, builds the buffer and
    goes on with [submit]; nothing fails on the way. *)
Lemma async_process_audio_stream_wav (metadata : SpeechMetadata) (w : world) :
  format metadata = WAV ->
  async_process_audio_stream metadata w
  = submit (wav_buffer metadata (concat (w_stream w))) (after_wav metadata w).
Proof.
  intros Hf. unfold async_process_audio_stream.
  case_decide; [congruence|].
  unfold bind at 1, async_for_chunk_in_stream.
  rewrite accumulate_concat.
  unfold bind at 1, lift. rewrite wav_of_ok.
  unfold bind at 1, emit at 1, after_wav. cbn [w_self w_stream w_service w_trace].
  now rewrite <- app_assoc.
Qed.

Lemma async_process_audio_stream_other (metadata : SpeechMetadata) (w : world) :
  format metadata <> WAV ->
  async_process_audio_stream metadata w
  = (Return {| text := ""; result := ERROR |},
     {| w_self := w_self w; w_stream := w_stream w; w_service := w_service w;
        w_trace := w_trace w
                   ++ [LogError "Unsupported audio format: %s" (format metadata)] |}).
Proof.
  intros Hf. unfold async_process_audio_stream.
  case_decide; [reflexivity | contradiction].
Qed.

Lemma keeps_self_supported_languages : keeps_self supported_languages.
Proof. unfold supported_languages. frame_steps. Qed.

Lemma appends_only_supported_languages : appends_only supported_languages.
Proof. unfold supported_languages. frame_steps. Qed.

Lemma keeps_self_submit (buf : wave.BytesIO) : keeps_self (submit buf).
Proof.
  pose proof keeps_self_supported_languages.
  unfold submit. cbn zeta. frame_steps.
Qed.

Lemma appends_only_submit (buf : wave.BytesIO) : appends_only (submit buf).
Proof.
  pose proof appends_only_supported_languages.
  unfold submit. cbn zeta. frame_steps.
Qed.

(** On the instance that the constructor leaves, [submit] stops at the read
    of [self._region]: nothing is added to the trace. *)
Lemma submit_without_region (buf : wave.BytesIO) (w : world) (api_key : value) :
  w_self w !! "_api_key" = Some api_key ->
  w_self w !! "_region" = None ->
  submit buf w = (Raise (AttributeError "_region"), w).
Proof.
  intros Hk Hr. unfold submit.
  rewrite (bind_Return _ _ w w api_key) by now apply getattr_instance.
  apply bind_Raise. now apply getattr_missing.
Qed.

(** On an instance that does have a [_region], [submit] builds the
    recognizer, awaits it once for 20 seconds and maps the reply. *)
Lemma submit_with_region (buf : wave.BytesIO) (w : world)
    (api_key region : value) (lang : string) :
  w_self w !! "_api_key" = Some api_key ->
  w_self w !! "_region" = Some region ->
  w_self w !! "_language" = Some (VStr lang) ->
  let reg := recognizer_for api_key region buf (str_split comma lang) in
  submit buf w
  = (match w_service w reg 20 with
     | speechsdk.Resolved r =>
         if decide (speechsdk.reason r = RecognizedSpeech)
         then Return {| text := speechsdk.text r; result := SUCCESS |}
         else Return {| text := reason_str (speechsdk.reason r);
                        result := ERROR |}
     | speechsdk.Unresolved => Raise TimeoutError
     | speechsdk.Failed e => Raise e
     end,
     {| w_self := w_self w; w_stream := w_stream w; w_service := w_service w;
        w_trace := w_trace w ++ sdk_calls reg |}).
Proof.
  intros Hk Hr Hl reg. unfold submit.
  rewrite (bind_Return _ _ w w api_key) by now apply getattr_instance.
  rewrite (bind_Return _ _ w w region) by now apply getattr_instance.
  unfold bind, emit, supported_languages, bind, getattr, split,
    recognize_once_within, bind, emit, ret.
  cbn [w_self w_stream w_service w_trace]. rewrite Hl.
  cbn [w_self w_stream w_service w_trace].
  subst reg. unfold recognizer_for, sdk_calls.
  cbn [speechsdk.speech_config speechsdk.audio_config
       speechsdk.auto_detect_source_language_config].
  repeat rewrite <- app_assoc. cbn [app].
  destruct (w_service w _ 20) as [r| |e]; [|reflexivity..].
  now case_decide.
Qed.

(** With WAV metadata, on any instance: the chunks, then the buffer, then
    whatever [submit] adds; the stream ends up exhausted. *)
Lemma wav_call_trace (metadata : SpeechMetadata) (w : world) :
  format metadata = WAV ->
  exists rest,
    w_stream (snd (async_process_audio_stream metadata w)) = []
    /\ w_trace (snd (async_process_audio_stream metadata w))
       = w_trace w ++ map StreamNext (w_stream w)
         ++ WaveWritten (wav_buffer metadata (concat (w_stream w))) :: rest.
Proof.
  intros Hf. rewrite async_process_audio_stream_wav by assumption.
  destruct (appends_only_submit (wav_buffer metadata (concat (w_stream w)))
              (after_wav metadata w)) as [Hs [t Ht]].
  exists t. split; [exact Hs|].
  rewrite Ht. cbn [after_wav w_trace]. now rewrite <- !app_assoc.
Qed.

Lemma no_sdk_call_in_stream (stream : list bytes) :
  existsb is_sdk_call (map StreamNext stream) = false.
Proof. induction stream as [|c rest IH]; [reflexivity | exact IH]. Qed.

End method_facts.

(** * The claims *)

(** C1: on an instance left by the constructor, every call with WAV metadata
    raises [AttributeError] for [_region].  The constructor does not store
    its [region] argument, whatever it is; the buffer is built first; the
    stream is drained and the trace ends with the buffer, so no SDK object is
    constructed and no recognition is started.  For every input at all, the
    trace holds no SDK call, and a returned value is the one of the
    unsupported-format branch. *)
Theorem wav_call_raises_attribute_error `{SpeechSdk}
    (hass api_key lang region : value) (metadata : SpeechMetadata)
    (stream : list bytes) (svc : service) :
  format metadata = WAV ->
  let self := AzureSpeechSTTProvider hass api_key lang region in
  let buf := wav_buffer metadata (concat stream) in
  self !! "_region" = None
  /\ (forall region', AzureSpeechSTTProvider hass api_key lang region' = self)
  /\ wav_of metadata (concat stream) = Return buf
  /\ call (async_process_audio_stream metadata) self stream svc
     = (Raise (AttributeError "_region"),
        {| w_self := self; w_stream := []; w_service := svc;
           w_trace := map StreamNext stream ++ [WaveWritten buf] |})
  /\ (forall metadata' stream' svc',
        let r := call (async_process_audio_stream metadata') self stream' svc' in
        existsb is_sdk_call (w_trace (snd r)) = false
        /\ forall res, fst r = Return res ->
             format metadata' <> WAV /\ res = {| text := ""; result := ERROR |}).
Proof.
  intros Hf self buf.
  assert (Hwav : forall md st sv, format md = WAV ->
            call (async_process_audio_stream md) self st sv
            = (Raise (AttributeError "_region"),
               {| w_self := self; w_stream := []; w_service := sv;
                  w_trace := map StreamNext st
                             ++ [WaveWritten (wav_buffer md (concat st))] |})).
  { intros md st sv Hmd. unfold call.
    rewrite async_process_audio_stream_wav by assumption.
    apply (submit_without_region _ _ api_key); cbn [after_wav w_self].
    - apply provider_api_key.
    - apply provider_region. }
  split; [apply provider_region|].
  split; [reflexivity|].
  split; [apply wav_of_ok|].
  split; [now apply Hwav|].
  intros md st sv r. subst r.
  destruct (decide (format md = WAV)) as [Hmd|Hmd].
  - rewrite (Hwav md st sv Hmd). cbn [fst snd w_trace]. split.
    + rewrite existsb_app, no_sdk_call_in_stream. reflexivity.
    + discriminate.
  - unfold call. rewrite async_process_audio_stream_other by assumption.
    cbn [fst snd w_trace]. split; [reflexivity|].
    intros res Hres. split; [assumption|congruence].
Qed.

Lemma wav_call_raises_attribute_error_witness :
  format (mono16k "en-US" PCM) = WAV
  /\ fst (call (async_process_audio_stream (mono16k "en-US" PCM))
            sample_provider [[x00; x01]; [x02; x03]]
            (azure.resolves azure.RecognizedSpeech "hello world"))
     = Raise (AttributeError "_region").
Proof.
  split; [reflexivity|].
  destruct (wav_call_raises_attribute_error
              (VObj "hass") (VStr "key") (VStr "en-US,fr-FR")
              (VStr "westeurope") (mono16k "en-US" PCM)
              [[x00; x01]; [x02; x03]]
              (azure.resolves azure.RecognizedSpeech "hello world") eq_refl)
    as (_ & _ & _ & E & _).
  unfold sample_provider. now rewrite E.
Defined.

(** C3: with metadata whose format is not WAV the method returns (it does
    not raise) the result with empty text and state ERROR; one record is
    logged at error level; the stream is not read and no SDK call is
    made. *)
Theorem unsupported_format_returns_error `{SpeechSdk}
    (metadata : SpeechMetadata) (self : gmap string value)
    (stream : list bytes) (svc : service) :
  format metadata <> WAV ->
  call (async_process_audio_stream metadata) self stream svc
  = (Return {| text := ""; result := ERROR |},
     {| w_self := self; w_stream := stream; w_service := svc;
        w_trace := [LogError "Unsupported audio format: %s" (format metadata)] |}).
Proof.
  intros Hf. unfold call.
  now rewrite async_process_audio_stream_other by assumption.
Qed.

Lemma unsupported_format_returns_error_witness :
  OGG <> WAV
  /\ call (async_process_audio_stream
             {| language := "en-US"; format := OGG; codec := OPUS;
                bit_rate := BITRATE_16; sample_rate := SAMPLERATE_16000;
                channel := CHANNEL_MONO |})
          sample_provider [[x00; x01]] azure.never_resolves
     = (Return {| text := ""; result := ERROR |},
        {| w_self := sample_provider; w_stream := [[x00; x01]];
           w_service := azure.never_resolves;
           w_trace := [LogError "Unsupported audio format: %s" OGG] |}).
Proof.
  split; [discriminate|].
  apply (unsupported_format_returns_error
           {| language := "en-US"; format := OGG; codec := OPUS;
              bit_rate := BITRATE_16; sample_rate := SAMPLERATE_16000;
              channel := CHANNEL_MONO |}).
  discriminate.
Defined.

(** C4: with WAV metadata, on any instance, the chunks are pulled one by one
    in delivery order until the stream is exhausted, and only then is the
    buffer written; its frames are the concatenation of the chunks, so for
    chunks A, B, C they are A followed by B followed by C. *)
Theorem payload_is_concatenation `{SpeechSdk}
    (metadata : SpeechMetadata) (w : world) :
  format metadata = WAV ->
  let w' := snd (async_process_audio_stream metadata w) in
  (exists buf rest,
     w_trace w' = w_trace w ++ map StreamNext (w_stream w)
                  ++ WaveWritten buf :: rest
     /\ wave.frames buf = concat (w_stream w)
     /\ wave.data_size <$> wave.header buf
        = Some (Z.of_nat (length (concat (w_stream w)))))
  /\ w_stream w' = []
  /\ (forall data, accumulate data (w_stream w) = data ++ concat (w_stream w))
  /\ (forall A B C : bytes, accumulate [] [A; B; C] = A ++ B ++ C).
Proof.
  intros Hf w'. subst w'.
  destruct (wav_call_trace metadata w Hf) as [rest [Hs Ht]].
  split; [|split; [exact Hs|split]].
  - exists (wav_buffer metadata (concat (w_stream w))), rest.
    split; [exact Ht|split; reflexivity].
  - intros data. apply accumulate_app.
  - intros A B C. rewrite accumulate_concat. cbn [concat].
    now rewrite app_nil_r.
Qed.

Lemma payload_is_concatenation_witness :
  format (mono16k "en-US" PCM) = WAV
  /\ w_stream (snd (call (async_process_audio_stream (mono16k "en-US" PCM))
                      sample_provider [[x00; x01]; [x02; x03]]
                      azure.never_resolves)) = [].
Proof.
  split; [reflexivity|].
  apply (payload_is_concatenation (mono16k "en-US" PCM)
           {| w_self := sample_provider; w_stream := [[x00; x01]; [x02; x03]];
              w_service := azure.never_resolves; w_trace := [] |} eq_refl).
Defined.

(** C5: for mono, 16-bit, 16000 Hz WAV metadata and the chunks 00 01 and
    02 03, the buffer that the method writes holds the frames 00 01 02 03
    under a header with 1 channel, 16 bits (2 bytes) per sample and frame
    rate 16000; in general the three fields are the metadata's channel, a
    eighth of its bit rate, and its sample rate. *)
Theorem wav_buffer_example `{SpeechSdk} (lang : string) (codec : AudioCodecs)
    (self : gmap string value) (svc : service) :
  let metadata := mono16k lang codec in
  let buf := {| wave.header := Some (pcm_header 1 2 16000 4);
                wave.frames := [x00; x01; x02; x03] |} in
  wav_of metadata (accumulate [] [[x00; x01]; [x02; x03]]) = Return buf
  /\ (exists rest,
        w_trace (snd (call (async_process_audio_stream metadata) self
                        [[x00; x01]; [x02; x03]] svc))
        = [StreamNext [x00; x01]; StreamNext [x02; x03]; WaveWritten buf]
          ++ rest)
  /\ wave.getnchannels (pcm_header 1 2 16000 4) = 1
  /\ wave.getsampwidth (pcm_header 1 2 16000 4) = 2
  /\ wave.getframerate (pcm_header 1 2 16000 4) = 16000
  /\ (forall (md : SpeechMetadata) (data : bytes),
        exists h, wav_of md data
                  = Return {| wave.header := Some h; wave.frames := data |}
        /\ wave.getnchannels h = channel_value (channel md)
        /\ wave.getsampwidth h = bit_rate_value (bit_rate md) / 8
        /\ wave.getframerate h = sample_rate_value (sample_rate md)).
Proof.
  intros metadata buf. split; [|split].
  - rewrite wav_of_ok. reflexivity.
  - destruct (wav_call_trace metadata
                {| w_self := self; w_stream := [[x00; x01]; [x02; x03]];
                   w_service := svc; w_trace := [] |} eq_refl)
      as [rest [_ Ht]].
    exists rest. unfold call. rewrite Ht. reflexivity.
  - repeat split.
    intros md data. exists (wav_header md (Z.of_nat (length data))).
    split; [apply wav_of_ok|].
    destruct (wav_header_fields md (Z.of_nat (length data))) as (? & ? & ? & _).
    auto.
Qed.

(** C6: on an instance constructed with the languages "en-US,fr-FR", the
    supported languages are "en-US" then "fr-FR" and the default language
    is "en-US".  For every languages string the supported languages are its
    comma-split (the pieces hold no comma and joined by commas give the
    string back) and the default language is the first piece; neither read
    changes anything. *)
Theorem languages_are_the_split `{SpeechSdk}
    (hass api_key region : value) (languages : string)
    (stream : list bytes) (svc : service) (trace : list event) :
  let provider l := AzureSpeechSTTProvider hass api_key (VStr l) region in
  let world_of l :=
    {| w_self := provider l; w_stream := stream; w_service := svc;
       w_trace := trace |} in
  supported_languages (world_of "en-US,fr-FR")
  = (Return ["en-US"; "fr-FR"], world_of "en-US,fr-FR")
  /\ default_language (world_of "en-US,fr-FR")
     = (Return "en-US", world_of "en-US,fr-FR")
  /\ supported_languages (world_of languages)
     = (Return (str_split comma languages), world_of languages)
  /\ (exists first rest,
        str_split comma languages = first :: rest
        /\ default_language (world_of languages)
           = (Return first, world_of languages))
  /\ str_join comma (str_split comma languages) = languages
  /\ Forall (sep_free comma) (str_split comma languages).
Proof.
  intros provider world_of.
  assert (Hs : forall l, supported_languages (world_of l)
                         = (Return (str_split comma l), world_of l)).
  { intros l. unfold supported_languages.
    rewrite (bind_Return _ _ (world_of l) (world_of l) (VStr l)); [reflexivity|].
    apply getattr_instance. apply provider_language. }
  assert (Hd : forall l first rest, str_split comma l = first :: rest ->
                 default_language (world_of l) = (Return first, world_of l)).
  { intros l first rest Hl. unfold default_language.
    rewrite (bind_Return _ _ (world_of l) (world_of l) (VStr l))
      by (apply getattr_instance, provider_language).
    unfold bind, split, ret. now rewrite Hl. }
  split; [apply (Hs "en-US,fr-FR")|].
  split; [now apply (Hd "en-US,fr-FR" "en-US" ["fr-FR"])|].
  split; [apply Hs|].
  split; [|split; [apply str_join_split | apply str_split_sep_free]].
  destruct (str_split comma languages) as [|first rest] eqn:Hl.
  - now apply str_split_nonempty in Hl.
  - exists first, rest. split; [reflexivity|]. now apply (Hd _ _ rest).
Qed.

(** C9: on every instance and in every world, each of the five capability
    properties returns its constant list (WAV, PCM, 16 bits, 16000 Hz,
    mono) and leaves the world, trace included, as it was. *)
Theorem capabilities_are_constant `{SpeechSdk} (w : world) :
  supported_formats w = (Return [WAV], w)
  /\ supported_codecs w = (Return [PCM], w)
  /\ supported_bit_rates w = (Return [BITRATE_16], w)
  /\ supported_sample_rates w = (Return [SAMPLERATE_16000], w)
  /\ supported_channels w = (Return [CHANNEL_MONO], w)
  /\ bit_rate_value BITRATE_16 = 16
  /\ sample_rate_value SAMPLERATE_16000 = 16000
  /\ channel_value CHANNEL_MONO = 1.
Proof. repeat split. Qed.

(** C10: whatever the metadata, the stream, the service and the outcome, the
    instance dictionary after the call is the one before it: the api key and
    the languages keep their values and no attribute is added, so nothing of
    the request stays on the instance. *)
Theorem call_keeps_instance `{SpeechSdk}
    (metadata : SpeechMetadata) (w : world) :
  let w' := snd (async_process_audio_stream metadata w) in
  w_self w' = w_self w
  /\ w_self w' !! "_api_key" = w_self w !! "_api_key"
  /\ w_self w' !! "_language" = w_self w !! "_language"
  /\ dom (w_self w') = dom (w_self w).
Proof.
  intros w'.
  assert (E : w_self w' = w_self w).
  { subst w'. destruct (decide (format metadata = WAV)) as [Hf|Hf].
    - rewrite async_process_audio_stream_wav by assumption.
      now rewrite keeps_self_submit.
    - now rewrite async_process_audio_stream_other by assumption. }
  now rewrite E.
Qed.

(** ** The result mapping, which the constructed instance never reaches

    The three statements below run the method on [sample_provider], the
    instance that the constructor leaves, against a service that would
    answer, and on the same instance with a [_region] attribute put in by
    hand.  They share one cause: [__init__] takes [region] and does not
    store it. *)

(** C2: the service resolves with RecognizedSpeech and the text
    "hello world"; the call on the constructed instance raises
    [AttributeError] instead of returning the text with state SUCCESS, which
    is what the same method returns once [_region] exists. *)
Theorem recognized_speech_is_not_returned :
  fst (call (async_process_audio_stream (mono16k "en-US" PCM))
         sample_provider sample_stream
         (azure.resolves azure.RecognizedSpeech "hello world"))
  = Raise (AttributeError "_region")
  /\ fst (call (async_process_audio_stream (mono16k "en-US" PCM))
            (with_region sample_provider) sample_stream
            (azure.resolves azure.RecognizedSpeech "hello world"))
     = Return {| text := "hello world"; result := SUCCESS |}.
Proof. split; vm_compute; reflexivity. Qed.

(** C7: the service resolves with the reason NoMatch; the call on the
    constructed instance raises [AttributeError] instead of returning the
    stringified reason with state ERROR, which is what the same method
    returns, after one recognition call, once [_region] exists. *)
Theorem other_reason_is_not_returned :
  fst (call (async_process_audio_stream (mono16k "en-US" PCM))
         sample_provider sample_stream (azure.resolves azure.NoMatch ""))
  = Raise (AttributeError "_region")
  /\ fst (call (async_process_audio_stream (mono16k "en-US" PCM))
            (with_region sample_provider) sample_stream
            (azure.resolves azure.NoMatch ""))
     = Return {| text := reason_str azure.NoMatch; result := ERROR |}
  /\ length (List.filter is_recognize_once
               (w_trace (snd (call (async_process_audio_stream
                                      (mono16k "en-US" PCM))
                                (with_region sample_provider) sample_stream
                                (azure.resolves azure.NoMatch "")))))
     = 1%nat.
Proof. repeat split; vm_compute; reflexivity. Qed.

(** C8: the service does not resolve within the deadline; the call on the
    constructed instance ends, but with [AttributeError] and before any
    recognition is awaited, instead of with the timeout failure that the
    same method raises once [_region] exists. *)
Theorem timeout_is_not_raised :
  call (async_process_audio_stream (mono16k "en-US" PCM))
    sample_provider sample_stream azure.never_resolves
  = (Raise (AttributeError "_region"),
     {| w_self := sample_provider; w_stream := [];
        w_service := azure.never_resolves;
        w_trace := map StreamNext sample_stream
                   ++ [WaveWritten (wav_buffer (mono16k "en-US" PCM)
                                      (concat sample_stream))] |})
  /\ fst (call (async_process_audio_stream (mono16k "en-US" PCM))
            (with_region sample_provider) sample_stream azure.never_resolves)
     = Raise TimeoutError.
Proof.
  split; [|vm_compute; reflexivity].
  unfold call. rewrite async_process_audio_stream_wav by reflexivity.
  apply (submit_without_region _ _ (VStr "key")); reflexivity.
Qed.

(** * Further properties *)

(** ** The language properties on any instance *)

Section language_facts.
Context `{SpeechSdk}.

Lemma supported_languages_str (w : world) (s : string) :
  w_self w !! "_language" = Some (VStr s) ->
  supported_languages w = (Return (str_split comma s), w).
Proof.
  intros Hl. unfold supported_languages.
  now rewrite (bind_Return _ _ w w (VStr s)) by now apply getattr_instance.
Qed.

Lemma default_language_str (w : world) (s : string) :
  w_self w !! "_language" = Some (VStr s) ->
  default_language w = (Return (hd "" (str_split comma s)), w).
Proof.
  intros Hl. unfold default_language.
  rewrite (bind_Return _ _ w w (VStr s)) by now apply getattr_instance.
  unfold bind, split, ret.
  pose proof (str_split_nonempty comma s) as Hne.
  now destruct (str_split comma s).
Qed.

Lemma str_split_length (sep : ascii) (s : string) :
  length (str_split sep s) = S (str_count sep s).
Proof.
  induction s as [|c rest IH]; [reflexivity|].
  simpl. destruct (Ascii.eqb c sep); simpl; [now rewrite IH|].
  destruct (str_split sep rest); simpl in *; congruence.
Qed.

End language_facts.

(** ** Setting up the engine ([async_get_engine]) *)

(** X1: the set-up needs the api key and nothing else.  Without the key it
    raises [KeyError]; with it, also when the language or the region is
    missing, it returns an instance with exactly the attributes [hass],
    [_api_key] and [_language], holding the given [hass], the configured key
    and the configured language or, by default, "en-US". *)
Theorem get_engine_needs_only_api_key `{SpeechSdk}
    (hass : value) (config : gmap string value) :
  match config !! "api_key" with
  | None => async_get_engine hass config = Raise (KeyError "api_key")
  | Some key =>
      exists self,
        async_get_engine hass config = Return self
        /\ self !! "hass" = Some hass
        /\ self !! "_api_key" = Some key
        /\ self !! "_language"
           = Some (default (VStr "en-US") (config !! "language"))
        /\ dom self = ({[ "hass"; "_api_key"; "_language" ]} : gset string)
  end.
Proof.
  unfold async_get_engine, CONF_API_KEY, CONF_LANG, DEFAULT_LANG.
  destruct (config !! "api_key") as [key|]; [|reflexivity].
  eexists. split; [reflexivity|].
  split; [rewrite provider_dict; now simplify_map_eq|].
  split; [apply provider_api_key|].
  split; [apply provider_language | apply provider_dom].
Qed.

(** X2: the configured region has no effect on the engine: setting it to any
    value, or removing it, gives the same result of the set-up. *)
Theorem get_engine_ignores_region `{SpeechSdk}
    (hass region : value) (config : gmap string value) :
  async_get_engine hass (<["region" := region]> config)
  = async_get_engine hass config
  /\ async_get_engine hass (delete "region" config)
     = async_get_engine hass config.
Proof.
  unfold async_get_engine, CONF_API_KEY, CONF_LANG.
  rewrite !lookup_insert_ne, !lookup_delete_ne by done.
  now destruct (config !! "api_key").
Qed.

(** X3: an engine set up from a configuration without a language supports
    exactly "en-US", which is also its default language. *)
Theorem engine_default_language `{SpeechSdk}
    (hass key : value) (config : gmap string value)
    (stream : list bytes) (svc : service) (trace : list event) :
  config !! "api_key" = Some key ->
  config !! "language" = None ->
  exists self,
    async_get_engine hass config = Return self
    /\ supported_languages (world_of self stream svc trace)
       = (Return ["en-US"], world_of self stream svc trace)
    /\ default_language (world_of self stream svc trace)
       = (Return "en-US", world_of self stream svc trace).
Proof.
  intros Hk Hl. unfold async_get_engine, CONF_API_KEY, CONF_LANG, DEFAULT_LANG.
  rewrite Hk, Hl. eexists. split; [reflexivity|].
  cbn [default]. split.
  - now rewrite (supported_languages_str _ "en-US")
      by apply provider_language.
  - now rewrite (default_language_str _ "en-US") by apply provider_language.
Qed.

Lemma engine_default_language_witness :
  exists self,
    async_get_engine (VObj "hass") minimal_config = Return self
    /\ supported_languages (world_of self [] azure.never_resolves [])
       = (Return ["en-US"], world_of self [] azure.never_resolves [])
    /\ default_language (world_of self [] azure.never_resolves [])
       = (Return "en-US", world_of self [] azure.never_resolves []).
Proof.
  apply (engine_default_language (VObj "hass") (VStr "key") minimal_config);
    reflexivity.
Defined.

(** X4: every engine that the set-up returns, whatever region the
    configuration names, fails on every WAV call: the stream is drained, the
    buffer is built, and [AttributeError] is raised for [_region] before any
    SDK call. *)
Theorem engine_wav_call_raises `{SpeechSdk}
    (hass key : value) (config : gmap string value)
    (metadata : SpeechMetadata) (stream : list bytes) (svc : service) :
  config !! "api_key" = Some key ->
  format metadata = WAV ->
  exists self,
    async_get_engine hass config = Return self
    /\ call (async_process_audio_stream metadata) self stream svc
       = (Raise (AttributeError "_region"),
          {| w_self := self; w_stream := []; w_service := svc;
             w_trace := map StreamNext stream
                        ++ [WaveWritten (wav_buffer metadata (concat stream))] |}).
Proof.
  intros Hk Hf. unfold async_get_engine, CONF_API_KEY. rewrite Hk.
  eexists. split; [reflexivity|].
  unfold call. rewrite async_process_audio_stream_wav by assumption.
  apply (submit_without_region _ _ key); cbn [after_wav w_self].
  - apply provider_api_key.
  - apply provider_region.
Qed.

Lemma engine_wav_call_raises_witness :
  exists self,
    async_get_engine (VObj "hass") sample_config = Return self
    /\ call (async_process_audio_stream (mono16k "en-US" PCM)) self
         sample_stream (azure.resolves azure.RecognizedSpeech "hello world")
       = (Raise (AttributeError "_region"),
          {| w_self := self; w_stream := [];
             w_service := azure.resolves azure.RecognizedSpeech "hello world";
             w_trace := map StreamNext sample_stream
                        ++ [WaveWritten (wav_buffer (mono16k "en-US" PCM)
                                           (concat sample_stream))] |}).
Proof.
  apply (engine_wav_call_raises (VObj "hass") (VStr "key") sample_config);
    reflexivity.
Defined.

(** ** The language properties *)

(** X5: on every instance, in whatever state, the two language properties
    agree: either [supported_languages] returns a list that is not empty and
    [default_language] returns its first element, or both raise the same
    exception.  [default_language] never fails on its index. *)
Theorem default_language_is_first_supported `{SpeechSdk} (w : world) :
  (exists first rest,
     supported_languages w = (Return (first :: rest), w)
     /\ default_language w = (Return first, w))
  \/ (exists e,
        supported_languages w = (Raise e, w)
        /\ default_language w = (Raise e, w)
        /\ forall msg, e <> IndexError msg).
Proof.
  unfold supported_languages, default_language, bind, getattr.
  destruct (w_self w !! "_language") as [v|].
  - destruct v as [|s|o].
    + right. exists (AttributeError "split"). now repeat split.
    + left. unfold split, ret.
      pose proof (str_split_nonempty comma s) as Hne.
      destruct (str_split comma s) as [|first rest]; [congruence|].
      now exists first, rest.
    + right. exists (AttributeError "split"). now repeat split.
  - right. exists (AttributeError "_language"). now repeat split.
Qed.

(** X6: an instance whose languages are the string [s] supports one language
    more than [s] has commas; an empty string still gives one (empty)
    language. *)
Theorem supported_languages_count `{SpeechSdk} (w : world) (s : string) :
  w_self w !! "_language" = Some (VStr s) ->
  exists l,
    supported_languages w = (Return l, w)
    /\ length l = S (str_count comma s).
Proof.
  intros Hl. exists (str_split comma s).
  split; [now apply supported_languages_str | apply str_split_length].
Qed.

Lemma supported_languages_count_witness :
  exists l,
    supported_languages (world_of sample_provider [] azure.never_resolves [])
    = (Return l, world_of sample_provider [] azure.never_resolves [])
    /\ length l = S (str_count comma "en-US,fr-FR").
Proof.
  apply (supported_languages_count
           (world_of sample_provider [] azure.never_resolves [])
           "en-US,fr-FR").
  reflexivity.
Defined.

(** X7: round trip of the language list.  An instance constructed with the
    comma-join of a non-empty list of tags, none of which holds a comma,
    supports exactly that list, in order, and its default language is the
    first tag. *)
Theorem languages_round_trip `{SpeechSdk}
    (hass api_key region : value) (tag : string) (tags : list string)
    (stream : list bytes) (svc : service) (trace : list event) :
  Forall (sep_free comma) (tag :: tags) ->
  let self :=
    AzureSpeechSTTProvider hass api_key
      (VStr (str_join comma (tag :: tags))) region in
  supported_languages (world_of self stream svc trace)
  = (Return (tag :: tags), world_of self stream svc trace)
  /\ default_language (world_of self stream svc trace)
     = (Return tag, world_of self stream svc trace).
Proof.
  intros Hfree self.
  assert (Hs : str_split comma (str_join comma (tag :: tags)) = tag :: tags)
    by now apply str_split_join.
  split.
  - rewrite (supported_languages_str _ (str_join comma (tag :: tags)))
      by apply provider_language.
    now rewrite Hs.
  - rewrite (default_language_str _ (str_join comma (tag :: tags)))
      by apply provider_language.
    now rewrite Hs.
Qed.

Lemma languages_round_trip_witness :
  let self :=
    AzureSpeechSTTProvider (VObj "hass") (VStr "key")
      (VStr (str_join comma ["de-DE"; "en-GB"; "it-IT"])) (VStr "westeurope") in
  supported_languages (world_of self [] azure.never_resolves [])
  = (Return ["de-DE"; "en-GB"; "it-IT"],
     world_of self [] azure.never_resolves [])
  /\ default_language (world_of self [] azure.never_resolves [])
     = (Return "de-DE", world_of self [] azure.never_resolves []).
Proof.
  apply (languages_round_trip (VObj "hass") (VStr "key") (VStr "westeurope")
           "de-DE" ["en-GB"; "it-IT"]).
  repeat constructor.
Defined.

(** ** What decides the outcome of a call *)

Section submit_facts.
Context `{SpeechSdk}.

Lemma local_ret {A} (a : A) : local (ret a).
Proof. now intros w1 w2 Hs Hv. Qed.

Lemma local_raise {A} (e : exn) : local (@raise _ A e).
Proof. now intros w1 w2 Hs Hv. Qed.

Lemma local_emit (e : event) : local (emit e).
Proof. now intros w1 w2 Hs Hv. Qed.

Lemma local_getattr (name : string) : local (getattr name).
Proof.
  intros w1 w2 Hs Hv. unfold getattr. rewrite Hs.
  destruct (w_self w2 !! name); [now repeat split|].
  destruct (Provider_attrs !! name); now repeat split.
Qed.

Lemma local_split (v : value) (sep : ascii) : local (split v sep).
Proof. destruct v; now intros w1 w2 Hs Hv. Qed.

Lemma local_bind {A B} (m : M A) (k : A -> M B) :
  local m -> (forall a, local (k a)) -> local (bind m k).
Proof.
  intros Hm Hk w1 w2 Hs Hv. unfold bind.
  destruct (Hm w1 w2 Hs Hv) as (Ho & Hs' & Hv').
  destruct (m w1) as [[a|e] w1'], (m w2) as [[a'|e'] w2'];
    simpl in *; try discriminate.
  - injection Ho as ->. now apply Hk.
  - injection Ho as ->. now repeat split.
Qed.

Lemma local_await (d : Z) (reg : speechsdk.SpeechRecognizer) :
  local (recognize_once_within d reg).
Proof.
  apply local_bind; [apply local_emit|].
  intros _ w1 w2 Hs Hv. rewrite Hv.
  destruct (w_service w2 reg d); now repeat split.
Qed.

Lemma local_submit (buf : wave.BytesIO) : local (submit buf).
Proof.
  unfold submit, supported_languages. cbn zeta.
  repeat first
    [ solve [auto using local_ret, local_raise, local_emit, local_getattr,
               local_split, local_await]
    | apply local_bind; [|intros ?]
    | case_decide ].
Qed.

Lemma getattr_cases (name : string) (w : world) :
  (exists v, getattr name w = (Return v, w))
  \/ getattr name w = (Raise (AttributeError name), w).
Proof.
  unfold getattr. destruct (w_self w !! name); [eauto|].
  destruct (Provider_attrs !! name); eauto.
Qed.

Lemma supported_languages_cases (w : world) :
  (exists l, supported_languages w = (Return l, w))
  \/ (exists e, supported_languages w = (Raise e, w)).
Proof.
  unfold supported_languages.
  destruct (getattr_cases "_language" w) as [[v E]|E].
  - rewrite (bind_Return _ _ _ _ _ E). destruct v; simpl; eauto.
  - rewrite (bind_Raise _ _ _ _ _ E). eauto.
Qed.

(** Whatever the instance, the SDK calls of [submit] are an initial part of
    the one fixed sequence. *)
Lemma submit_trace_shape (buf : wave.BytesIO) (w : world) :
  exists api_key region langs n,
    w_trace (snd (submit buf w))
    = w_trace w
      ++ firstn n (sdk_calls (recognizer_for api_key region buf langs)).
Proof.
  unfold submit.
  destruct (getattr_cases "_api_key" w) as [[k E]|E].
  2: { rewrite (bind_Raise _ _ _ _ _ E). exists VNone, VNone, [], 0%nat.
       cbn. now rewrite app_nil_r. }
  rewrite (bind_Return _ _ _ _ _ E).
  destruct (getattr_cases "_region" w) as [[r E2]|E2].
  2: { rewrite (bind_Raise _ _ _ _ _ E2). exists VNone, VNone, [], 0%nat.
       cbn. now rewrite app_nil_r. }
  rewrite (bind_Return _ _ _ _ _ E2). cbn zeta.
  unfold bind at 1, emit at 1. unfold bind at 1, emit at 1.
  cbn [w_self w_stream w_service w_trace].
  match goal with |- context [bind supported_languages ?k ?w2] =>
    destruct (supported_languages_cases w2) as [[l E3]|[e E3]];
    [rewrite (bind_Return _ _ _ _ _ E3)|rewrite (bind_Raise _ _ _ _ _ E3)]
  end.
  2: { exists k, r, [], 2%nat. cbn. now rewrite <- app_assoc. }
  unfold bind at 1, emit at 1. unfold bind at 1, emit at 1.
  unfold bind at 1, recognize_once_within, bind at 1, emit.
  cbn [w_self w_stream w_service w_trace].
  exists k, r, l, 5%nat.
  destruct (w_service w _ 20) as [res| |e]; [case_decide|..];
    cbn; now rewrite <- !app_assoc.
Qed.

End submit_facts.

(** ** The method on any instance *)

(** X8: the method reads the format, the bit rate, the sample rate and the
    channel of the metadata and nothing else: two metadata that agree on
    these four, whatever their language and codec, give the same outcome and
    the same final world.  In particular the codec is never checked. *)
Theorem metadata_language_and_codec_ignored `{SpeechSdk}
    (md1 md2 : SpeechMetadata) (w : world) :
  format md1 = format md2 ->
  bit_rate md1 = bit_rate md2 ->
  sample_rate md1 = sample_rate md2 ->
  channel md1 = channel md2 ->
  async_process_audio_stream md1 w = async_process_audio_stream md2 w.
Proof.
  destruct md1 as [l1 f1 c1 b1 s1 ch1], md2 as [l2 f2 c2 b2 s2 ch2].
  cbn [format bit_rate sample_rate channel]. intros -> -> -> ->.
  reflexivity.
Qed.

Lemma metadata_language_and_codec_ignored_witness :
  async_process_audio_stream (mono16k "en-US" PCM)
    (world_of sample_provider sample_stream azure.never_resolves [])
  = async_process_audio_stream (mono16k "fr-FR" OPUS)
      (world_of sample_provider sample_stream azure.never_resolves []).
Proof.
  apply (metadata_language_and_codec_ignored
           (mono16k "en-US" PCM) (mono16k "fr-FR" OPUS)); reflexivity.
Defined.

(** X9: where the stream is cut into chunks does not matter for the result:
    on the same instance and against the same service, two streams with the
    same concatenation give the same outcome, whatever the metadata. *)
Theorem chunking_is_irrelevant `{SpeechSdk}
    (metadata : SpeechMetadata) (self : gmap string value)
    (stream1 stream2 : list bytes) (svc : service) :
  concat stream1 = concat stream2 ->
  fst (call (async_process_audio_stream metadata) self stream1 svc)
  = fst (call (async_process_audio_stream metadata) self stream2 svc).
Proof.
  intros Hc. unfold call.
  destruct (decide (format metadata = WAV)) as [Hf|Hf].
  - rewrite !async_process_audio_stream_wav by assumption.
    cbn [w_stream]. rewrite Hc.
    now apply local_submit.
  - now rewrite !async_process_audio_stream_other by assumption.
Qed.

Lemma chunking_is_irrelevant_witness :
  fst (call (async_process_audio_stream (mono16k "en-US" PCM))
         (with_region sample_provider) [[x00; x01]; [x02; x03]]
         (azure.resolves azure.RecognizedSpeech "hello world"))
  = fst (call (async_process_audio_stream (mono16k "en-US" PCM))
           (with_region sample_provider) [[x00]; []; [x01; x02; x03]]
           (azure.resolves azure.RecognizedSpeech "hello world")).
Proof.
  apply (chunking_is_irrelevant (mono16k "en-US" PCM)
           (with_region sample_provider)
           [[x00; x01]; [x02; x03]] [[x00]; []; [x01; x02; x03]]).
  reflexivity.
Defined.

(** X10: on an instance that has the attributes [_api_key], [_region] and a
    string [_language], a WAV call gives what the service replies to the one
    recognizer built from them: the recognized text with state SUCCESS for
    the reason RecognizedSpeech, the stringified reason with state ERROR for
    any other reason, a raised timeout when the reply does not come within
    20 seconds, and the SDK's own exception when it fails. *)
Theorem wav_call_with_region_maps_reply `{SpeechSdk}
    (metadata : SpeechMetadata) (self : gmap string value)
    (api_key region : value) (lang : string)
    (stream : list bytes) (svc : service) :
  format metadata = WAV ->
  self !! "_api_key" = Some api_key ->
  self !! "_region" = Some region ->
  self !! "_language" = Some (VStr lang) ->
  fst (call (async_process_audio_stream metadata) self stream svc)
  = result_of_reply
      (svc (recognizer_for api_key region
              (wav_buffer metadata (concat stream)) (str_split comma lang))
           20).
Proof.
  intros Hf Hk Hr Hl. unfold call.
  rewrite async_process_audio_stream_wav by assumption.
  cbn [w_stream].
  rewrite (submit_with_region _ _ api_key region lang) by assumption.
  reflexivity.
Qed.

Lemma wav_call_with_region_maps_reply_witness :
  fst (call (async_process_audio_stream (mono16k "en-US" PCM))
         (with_region sample_provider) sample_stream
         (azure.resolves azure.Canceled ""))
  = result_of_reply
      (azure.resolves azure.Canceled ""
         (recognizer_for (VStr "key") (VStr "westeurope")
            (wav_buffer (mono16k "en-US" PCM) (concat sample_stream))
            (str_split comma "en-US,fr-FR"))
         20).
Proof.
  apply (wav_call_with_region_maps_reply (mono16k "en-US" PCM)
           (with_region sample_provider) (VStr "key") (VStr "westeurope")
           "en-US,fr-FR" sample_stream (azure.resolves azure.Canceled ""));
    reflexivity.
Defined.

(** X11: on such an instance a WAV call leaves the instance as it was and the
    stream exhausted, and does, in this order: pull every chunk, write the
    buffer, construct the speech configuration from [_api_key] and
    [_region], the audio configuration from the buffer, the language
    detection from the comma-split of [_language], the recognizer from the
    three, and await one recognition with a deadline of 20 seconds.  Nothing
    is logged and nothing is retried, whatever the reply. *)
Theorem wav_call_with_region_trace `{SpeechSdk}
    (metadata : SpeechMetadata) (self : gmap string value)
    (api_key region : value) (lang : string)
    (stream : list bytes) (svc : service) :
  format metadata = WAV ->
  self !! "_api_key" = Some api_key ->
  self !! "_region" = Some region ->
  self !! "_language" = Some (VStr lang) ->
  let buf := wav_buffer metadata (concat stream) in
  snd (call (async_process_audio_stream metadata) self stream svc)
  = {| w_self := self; w_stream := []; w_service := svc;
       w_trace :=
         map StreamNext stream
         ++ [WaveWritten buf]
         ++ sdk_calls (recognizer_for api_key region buf
                         (str_split comma lang)) |}.
Proof.
  intros Hf Hk Hr Hl buf. unfold call.
  rewrite async_process_audio_stream_wav by assumption.
  cbn [w_stream].
  rewrite (submit_with_region _ _ api_key region lang) by assumption.
  cbn [snd after_wav w_self w_stream w_service w_trace app].
  now rewrite <- app_assoc.
Qed.

Lemma wav_call_with_region_trace_witness :
  snd (call (async_process_audio_stream (mono16k "en-US" PCM))
         (with_region sample_provider) sample_stream azure.never_resolves)
  = {| w_self := with_region sample_provider; w_stream := [];
       w_service := azure.never_resolves;
       w_trace :=
         map StreamNext sample_stream
         ++ [WaveWritten (wav_buffer (mono16k "en-US" PCM)
                            (concat sample_stream))]
         ++ sdk_calls (recognizer_for (VStr "key") (VStr "westeurope")
                         (wav_buffer (mono16k "en-US" PCM)
                            (concat sample_stream))
                         (str_split comma "en-US,fr-FR")) |}.
Proof.
  apply (wav_call_with_region_trace (mono16k "en-US" PCM)
           (with_region sample_provider) (VStr "key") (VStr "westeurope")
           "en-US,fr-FR" sample_stream azure.never_resolves);
    reflexivity.
Defined.

Section count_facts.
Context `{SpeechSdk}.

Lemma count_recognize_once_app (t1 t2 : list event) :
  count_recognize_once (t1 ++ t2)
  = (count_recognize_once t1 + count_recognize_once t2)%nat.
Proof.
  unfold count_recognize_once. now rewrite List.filter_app, length_app.
Qed.

Lemma count_recognize_once_stream (stream : list bytes) :
  count_recognize_once (map StreamNext stream) = 0%nat.
Proof. induction stream as [|c rest IH]; [reflexivity | exact IH]. Qed.

Lemma count_recognize_once_sdk_calls (n : nat)
    (reg : speechsdk.SpeechRecognizer) :
  (count_recognize_once (firstn n (sdk_calls reg)) <= 1)%nat.
Proof.
  unfold count_recognize_once, sdk_calls.
  do 6 (destruct n as [|n]; [simpl; lia|]). simpl. lia.
Qed.

End count_facts.


(** X13: on every instance, whatever attributes it has or lacks, a WAV call
    pulls all chunks, writes the buffer, and then makes SDK calls that are
    an initial part of the one fixed sequence (speech configuration, audio
    configuration, language detection, recognizer, one recognition); it
    never logs and never calls the SDK before the buffer is written. *)
Theorem wav_call_sdk_calls_are_a_prefix `{SpeechSdk}
    (metadata : SpeechMetadata) (w : world) :
  format metadata = WAV ->
  let buf := wav_buffer metadata (concat (w_stream w)) in
  exists api_key region langs n,
    w_trace (snd (async_process_audio_stream metadata w))
    = w_trace w ++ map StreamNext (w_stream w)
      ++ WaveWritten buf
         :: firstn n (sdk_calls (recognizer_for api_key region buf langs)).
Proof.
  intros Hf buf. rewrite async_process_audio_stream_wav by assumption.
  destruct (submit_trace_shape buf (after_wav metadata w))
    as (k & r & l & n & Ht).
  exists k, r, l, n. fold buf in Ht |- *. rewrite Ht.
  cbn [after_wav w_trace]. now rewrite <- !app_assoc.
Qed.

Lemma wav_call_sdk_calls_are_a_prefix_witness :
  exists api_key region langs n,
    w_trace (snd (async_process_audio_stream (mono16k "en-US" PCM)
                    (world_of ∅ sample_stream azure.never_resolves [])))
    = [] ++ map StreamNext sample_stream
      ++ WaveWritten (wav_buffer (mono16k "en-US" PCM) (concat sample_stream))
         :: firstn n
              (sdk_calls
                 (recognizer_for api_key region
                    (wav_buffer (mono16k "en-US" PCM) (concat sample_stream))
                    langs)).
Proof.
  apply (wav_call_sdk_calls_are_a_prefix (mono16k "en-US" PCM)
           (world_of ∅ sample_stream azure.never_resolves [])).
  reflexivity.
Defined.

(** X14: one call awaits at most one recognition, on every instance, for
    every metadata and whatever the service replies: there is no retry. *)
Theorem at_most_one_recognition `{SpeechSdk}
    (metadata : SpeechMetadata) (w : world) :
  (count_recognize_once
     (w_trace (snd (async_process_audio_stream metadata w)))
   <= count_recognize_once (w_trace w) + 1)%nat.
Proof.
  destruct (decide (format metadata = WAV)) as [Hf|Hf].
  - rewrite async_process_audio_stream_wav by assumption.
    destruct (submit_trace_shape
                (wav_buffer metadata (concat (w_stream w)))
                (after_wav metadata w)) as (k & r & l & n & Ht).
    rewrite Ht. cbn [after_wav w_trace].
    rewrite !count_recognize_once_app, count_recognize_once_stream.
    pose proof (count_recognize_once_sdk_calls n
                  (recognizer_for k r
                     (wav_buffer metadata (concat (w_stream w))) l)).
    cbn [count_recognize_once List.filter is_recognize_once length] in *.
    change (count_recognize_once
              [WaveWritten (wav_buffer metadata (concat (w_stream w)))])
      with 0%nat.
    lia.
  - rewrite async_process_audio_stream_other by assumption.
    cbn [snd w_trace]. rewrite count_recognize_once_app.
    change (count_recognize_once
              [LogError "Unsupported audio format: %s" (format metadata)])
      with 0%nat.
    lia.
Qed.
